(** * Ultimate tic-tac-toe: a shallow embedding of [game.py]

    The development follows the source file top to bottom: the pydantic
    models [SmallBoard] and [Board], the line editor [blessed_input], the
    rendering functions, the rules stubs ([makeMove], [checkSmallWin],
    [checkWin], [checkSmallDraw], [checkDraw]), [safe_int] and the game
    loop.  Python integers are [Z], Python strings are lists of Unicode
    code points, printing is an explicit list of output events and an
    uncaught exception is an explicit result. *)

From Stdlib Require Import ZArith List Bool String Ascii DecimalString Lia.
Import ListNotations.
Local Open Scope Z_scope.

(** ** Python values *)

Module Py.

(** A Python [str] is a sequence of code points; [len] counts them. *)
Definition char := N.
Definition str := list char.

(** A string literal of the source (all of them are ASCII). *)
Definition lit (s : string) : str := map N_of_ascii (list_ascii_of_string s).

Fixpoint str_eqb (a b : str) : bool :=
  match a, b with
  | [], [] => true
  | x :: a', y :: b' => N.eqb x y && str_eqb a' b'
  | _, _ => false
  end.

(** [x in l] for a list of strings and for a list of integers. *)
Definition str_in (x : str) (l : list str) : bool := existsb (str_eqb x) l.
Definition int_in (x : Z) (l : list Z) : bool := existsb (Z.eqb x) l.

(** [str(n)] and [f"{n}"] for an integer. *)
Definition str_of_int (n : Z) : str := lit (NilEmpty.string_of_int (Z.to_int n)).

(** The exceptions the program can raise. *)
Inductive exn :=
| IndexError
| Exception (msg : str).

(** What the dynamically typed parts of the program hold: the value of a
    function whose body is [pass], and the values an [if] tests. *)
Inductive obj :=
| None_
| Bool_ (b : bool)
| Int_ (n : Z)
| Str_ (s : str).

(** Truth value testing, as [if x:] does it. *)
Definition truthy (x : obj) : bool :=
  match x with
  | None_ => false
  | Bool_ b => b
  | Int_ n => negb (n =? 0)
  | Str_ s => negb (Nat.eqb (List.length s) 0)
  end.

(** [s[i]] for a non-negative constant [i]: a one-character string, or
    [IndexError]. *)
Definition getitem (s : str) (i : nat) : option str :=
  match nth_error s i with
  | Some c => Some [c]
  | None => None
  end.

End Py.
Import Py.

(** ** Output and exceptions

    [print] appends to the terminal; a computation yields what it printed
    and either a value or the exception that ended it. *)

Record Terminal := { height : Z }.

Inductive event :=
| Clear                                  (* print(term.home + term.clear) *)
| ClearEol (row col : Z)                 (* print(term.move(row, col) + term.clear_eol, end="") *)
| PrintAt (row col : Z) (text : str)     (* print(term.move(row, col) + text) *)
| Print (text : str)                     (* print(text) *)
| Write (text : str)                     (* print(text, end="") *)
| WriteAt (row col : Z) (text : str)     (* print(term.move(row, col) + text, end="") *)
| MoveTo (row col : Z)                   (* print(term.move(row, col), end="") *)
| Ask (prompt : str) (position : Z * Z). (* a call of blessed_input *)

Inductive result (A : Type) :=
| Ok (a : A)
| Raise (e : exn).
Arguments Ok {A} a.
Arguments Raise {A} e.

Definition io (A : Type) : Type := list event * result A.

Definition ret {A} (a : A) : io A := ([], Ok a).
Definition raise {A} (e : exn) : io A := ([], Raise e).
Definition emit (ev : event) : io unit := ([ev], Ok tt).

Definition bind {A B} (m : io A) (k : A -> io B) : io B :=
  match m with
  | (out, Ok a) => let (out', r) := k a in (out ++ out', r)
  | (out, Raise e) => (out, Raise e)
  end.

Notation "x <- m ;; k" := (bind m (fun x => k))
  (at level 61, m at next level, right associativity).
Notation "m ;;; k" := (bind m (fun _ => k))
  (at level 61, right associativity).

(** [l[i]] for a list and a non-negative constant [i]. *)
Definition index {A} (l : list A) (i : nat) : io A :=
  match nth_error l i with
  | Some a => ret a
  | None => raise IndexError
  end.

(** ** The data model (lines 15-19) *)

Record SmallBoard := { squares : list Z }.
Record Board := { small_boards : list SmallBoard }.

(** ** The line editor (lines 21-123) *)

Module Editor.

(** A key press, named by the branch of lines 94-118 that handles it;
    [Printable s] carries [str(const_key)]. *)
Inductive key :=
| Enter
| Backspace
| Delete
| Left
| Right
| Printable (s : str)
| Other.

(** [del l[i]]: a negative index counts from the end, an index out of
    range is an [IndexError]. *)
Definition del {A} (l : list A) (i : Z) : option (list A) :=
  let n := Z.of_nat (List.length l) in
  let j := if i <? 0 then i + n else i in
  if (0 <=? j) && (j <? n)
  then Some (firstn (Z.to_nat j) l ++ skipn (S (Z.to_nat j)) l)
  else None.

(** [l.insert(i, x)]: the index is clamped to the list. *)
Definition insert {A} (l : list A) (i : Z) (x : A) : list A :=
  let n := Z.of_nat (List.length l) in
  let j := if i <? 0 then Z.max (i + n) 0 else Z.min i n in
  firstn (Z.to_nat j) l ++ x :: skipn (Z.to_nat j) l.

Record editor := {
  const_input_buffer : list str;
  cursor_pos_in_buffer : Z
}.

(** Lines 46-48. *)
Definition start (initial_text : str) : editor :=
  {| const_input_buffer := map (fun c => [c]) initial_text;
     cursor_pos_in_buffer := Z.of_nat (List.length initial_text) |}.

(** Lines 56-64. *)
Definition start_position (term : Terminal) (position : Z * Z) : Z * Z :=
  if (fst position =? -1) || (snd position =? -1)
  then (height term - 1, 0)
  else (fst position, snd position).

(** ["".join(const_input_buffer)] *)
Definition join (l : list str) : str := List.concat l.

(** Lines 72-88: what one turn of the loop draws before it reads a key. *)
Definition redraw (prompt : str) (start : Z * Z) (e : editor) : list event :=
  let const_input_display_col := snd start + Z.of_nat (List.length prompt) in
  [ ClearEol (fst start) (snd start);
    Write prompt;
    Write (join (const_input_buffer e));
    MoveTo (fst start) (const_input_display_col + cursor_pos_in_buffer e) ].

(** Lines 97-118: the branches that stay in the loop. *)
Definition press (e : editor) (const_key : key) : result editor :=
  let buf := const_input_buffer e in
  let cur := cursor_pos_in_buffer e in
  match const_key with
  | Enter => Ok e
  | Backspace =>
      if cur >? 0 then
        match del buf (cur - 1) with
        | Some buf' => Ok {| const_input_buffer := buf'; cursor_pos_in_buffer := cur - 1 |}
        | None => Raise IndexError
        end
      else Ok e
  | Delete =>
      if cur <? Z.of_nat (List.length buf) then
        match del buf cur with
        | Some buf' => Ok {| const_input_buffer := buf'; cursor_pos_in_buffer := cur |}
        | None => Raise IndexError
        end
      else Ok e
  | Left =>
      if cur >? 0
      then Ok {| const_input_buffer := buf; cursor_pos_in_buffer := cur - 1 |}
      else Ok e
  | Right =>
      if cur <? Z.of_nat (List.length buf)
      then Ok {| const_input_buffer := buf; cursor_pos_in_buffer := cur + 1 |}
      else Ok e
  | Printable s =>
      Ok {| const_input_buffer := insert buf cur s; cursor_pos_in_buffer := cur + 1 |}
  | Other => Ok e
  end.

(** How a call stands after the keys typed so far. *)
Inductive reading :=
| Returned (line : str) (rest : list key)   (* Enter was pressed *)
| Raised (x : exn)
| Reading (e : editor).                     (* waiting in term.inkey() *)

(** Lines 69-123. *)
Fixpoint read (prompt : str) (start : Z * Z) (e : editor) (keys : list key)
    : list event * reading :=
  let out := redraw prompt start e in
  match keys with
  | [] => (out, Reading e)
  | Enter :: keys' =>
      (out ++ [ClearEol (fst start) (snd start)],
       Returned (join (const_input_buffer e)) keys')
  | const_key :: keys' =>
      match press e const_key with
      | Ok e' => let (out', r) := read prompt start e' keys' in (out ++ out', r)
      | Raise x => (out, Raised x)
      end
  end.

Definition blessed_input (term : Terminal) (prompt initial_text : str)
    (position : Z * Z) (keys : list key) : list event * reading :=
  read prompt (start_position term position) (start initial_text) keys.

End Editor.

(** ** Rendering (lines 125-215) *)

Definition render_char_at_position (term : Terminal) (char_to_render : str)
    (position : Z * Z) : io unit :=
  let const_char :=
    match char_to_render with
    | c :: _ => [c]
    | [] => lit " "
    end in
  emit (WriteAt (fst position) (snd position) const_char).

Definition render_box (term : Terminal) (position : Z * Z) (box_content : str)
    : io unit :=
  emit (PrintAt (fst position) (snd position) (lit "------")) ;;;
  emit (PrintAt (fst position + 1) (snd position)
          (lit "| " ++ box_content ++ lit " |")) ;;;
  emit (PrintAt (fst position + 2) (snd position) (lit "------")).

Definition get_box_content (cell_value : Z) (placeholder : str) : str :=
  if cell_value =? 1 then lit "x"
  else if cell_value =? -1 then lit "o"
  else placeholder.

(** The placeholder [f"{board_number}a" if isActive else "  "]. *)
Definition label (board_number : Z) (letter : string) (isActive : bool) : str :=
  if isActive then str_of_int board_number ++ lit letter else lit "  ".

Definition render_small_board (term : Terminal) (position : Z * Z)
    (small_board : SmallBoard) (board_number : Z) (isActive : bool) : io unit :=
  let top := fst position in
  let left := snd position in
  v <- index (squares small_board) 0 ;;
  render_box term (top, left) (get_box_content v (label board_number "a" isActive)) ;;;
  let left := left + 6 in
  v <- index (squares small_board) 1 ;;
  render_box term (top, left) (get_box_content v (label board_number "b" isActive)) ;;;
  let left := left + 6 in
  v <- index (squares small_board) 2 ;;
  render_box term (top, left) (get_box_content v (label board_number "c" isActive)) ;;;
  let top := top + 3 in
  let left := snd position in
  v <- index (squares small_board) 3 ;;
  render_box term (top, left) (get_box_content v (label board_number "d" isActive)) ;;;
  let left := left + 6 in
  v <- index (squares small_board) 4 ;;
  render_box term (top, left) (get_box_content v (label board_number "e" isActive)) ;;;
  let left := left + 6 in
  v <- index (squares small_board) 5 ;;
  render_box term (top, left) (get_box_content v (label board_number "f" isActive)) ;;;
  let top := top + 3 in
  let left := snd position in
  v <- index (squares small_board) 6 ;;
  render_box term (top, left) (get_box_content v (label board_number "g" isActive)) ;;;
  let left := left + 6 in
  v <- index (squares small_board) 7 ;;
  render_box term (top, left) (get_box_content v (label board_number "h" isActive)) ;;;
  let left := left + 6 in
  v <- index (squares small_board) 8 ;;
  render_box term (top, left) (get_box_content v (label board_number "i" isActive)).

Definition renderBoard (term : Terminal) (board : Board)
    (active_small_boards : list Z) : io unit :=
  emit Clear ;;;
  b <- index (small_boards board) 0 ;;
  render_small_board term (0, 0) b 1 (int_in 1 active_small_boards) ;;;
  b <- index (small_boards board) 1 ;;
  render_small_board term (0, 20) b 2 (int_in 2 active_small_boards) ;;;
  b <- index (small_boards board) 2 ;;
  render_small_board term (0, 40) b 3 (int_in 3 active_small_boards) ;;;
  b <- index (small_boards board) 3 ;;
  render_small_board term (10, 0) b 4 (int_in 4 active_small_boards) ;;;
  b <- index (small_boards board) 4 ;;
  render_small_board term (10, 20) b 5 (int_in 5 active_small_boards) ;;;
  b <- index (small_boards board) 5 ;;
  render_small_board term (10, 40) b 6 (int_in 6 active_small_boards) ;;;
  b <- index (small_boards board) 6 ;;
  render_small_board term (20, 0) b 7 (int_in 7 active_small_boards) ;;;
  b <- index (small_boards board) 7 ;;
  render_small_board term (20, 20) b 8 (int_in 8 active_small_boards) ;;;
  b <- index (small_boards board) 8 ;;
  render_small_board term (20, 40) b 9 (int_in 9 active_small_boards).

(** ** The rules (lines 221-237) *)

Definition makeMove (board : Board) (active_small_boards : list Z) (move : str)
    (is_first_user : bool) : Board * list Z :=
  let new_board := board in
  let active_small_boards : list Z := [] in
  (new_board, active_small_boards).

(** A body that is [pass] returns [None]. *)
Definition checkSmallWin (small_board : SmallBoard) : obj := None_.
Definition checkWin (board_position : Board) : obj := None_.
Definition checkSmallDraw (small_board : SmallBoard) : obj := None_.
Definition checkDraw (board_position : Board) : obj := None_.

(** ** The game loop (lines 239-300) *)

Definition initial_board : Board :=
  {| small_boards := repeat {| squares := repeat 0 9 |} 9 |}.

(** [int(s)] on a string of ASCII code points, [None] for [ValueError]:
    surrounding blanks (tab, line feed, vertical tab, form feed, carriage
    return, space) are stripped, one sign is allowed, and the digits may be
    separated by single underscores.  (CPython also accepts the decimal
    digits and the spaces of other scripts, and refuses more than 4300
    digits; the game loop passes one of ["1"] .. ["9"] only.) *)
Module Int.

Definition is_space (c : char) : bool :=
  (((9 <=? c) && (c <=? 13)) || (c =? 32))%N.

Definition digit (c : char) : option Z :=
  if ((48 <=? c) && (c <=? 57))%N then Some (Z.of_N c - 48) else None.

Fixpoint lstrip (s : str) : str :=
  match s with
  | c :: s' => if is_space c then lstrip s' else s
  | [] => []
  end.

Definition strip (s : str) : str := rev (lstrip (rev (lstrip s))).

(** [acc] is the value of the digits read, [after_digit] tells whether the
    previous character was a digit (an underscore must follow one, and the
    string must end on one). *)
Fixpoint digits (acc : Z) (after_digit : bool) (s : str) : option Z :=
  match s with
  | [] => if after_digit then Some acc else None
  | c :: s' =>
      if (c =? 95)%N then
        if after_digit then digits acc false s' else None
      else
        match digit c with
        | Some d => digits (10 * acc + d) true s'
        | None => None
        end
  end.

Definition parse (s : str) : option Z :=
  match strip s with
  | c :: s' =>
      if (c =? 45)%N then option_map Z.opp (digits 0 false s')
      else if (c =? 43)%N then digits 0 false s'
      else digits 0 false (c :: s')
  | [] => None
  end.

End Int.

Definition safe_int (s : str) : Z :=
  match Int.parse s with
  | Some n => n
  | None => -1
  end.

(** [str(l)] for a list of integers. *)
Fixpoint join_ints (l : list Z) : str :=
  match l with
  | [] => []
  | [n] => str_of_int n
  | n :: l' => str_of_int n ++ lit ", " ++ join_ints l'
  end.

Definition str_of_list (l : list Z) : str := lit "[" ++ join_ints l ++ lit "]".

(** [f"{x}"] for a value. *)
Definition format (x : obj) : str :=
  match x with
  | None_ => lit "None"
  | Bool_ b => if b then lit "True" else lit "False"
  | Int_ n => str_of_int n
  | Str_ s => s
  end.

(** The variables that one iteration hands to the next. *)
Record game := {
  board : Board;
  active_small_boards : list Z;
  is_first_user : bool
}.

(** The program waits in [blessed_input] at three places; between two of
    them it runs without input. *)
Inductive config :=
| AtMove (g : game)                          (* line 271 *)
| AtRetry (g : game)                         (* lines 275 and 282 *)
| AtContinue (g : game) (new_board : Board). (* line 287 *)

Inductive outcome :=
| Exited (code : Z)   (* exit(0) *)
| Finished            (* break *)
| Failed (e : exn).   (* an exception nobody catches *)

Definition default_position : Z * Z := (-1, -1).

Definition ask_move : event :=
  Ask (lit "Enter the square where you want to move: ") default_position.
Definition ask_retry : event :=
  Ask (lit "Invalid move. Press enter to try again") default_position.
Definition ask_continue (term : Terminal) : event :=
  Ask (lit "Press enter to continue") (height term - 2, 0).

Definition board_tokens : list str :=
  map lit ["1"; "2"; "3"; "4"; "5"; "6"; "7"; "8"; "9"]%string.
Definition position_tokens : list str :=
  map lit ["a"; "b"; "c"; "d"; "e"; "f"; "g"; "h"; "i"]%string.

(** The test of line 281; [safe_int] cannot raise, so the order in which
    [or] evaluates its operands is not observable. *)
Definition invalid_selection (move_board move_position : str)
    (active_small_boards : list Z) : bool :=
  negb (str_in move_board board_tokens)
  || negb (int_in (safe_int move_board) active_small_boards)
  || negb (str_in move_position position_tokens).

(** Lines 274-283, the two tests that end in [continue]: [Ok true] when the
    loop goes on to line 284, [Ok false] when it asks again. *)
Definition validation (active_small_boards : list Z) (move : str) : result bool :=
  if negb (Nat.eqb (List.length move) 2) then Ok false
  else
    match getitem move 0, getitem move 1 with
    | Some move_board, Some move_position =>
        Ok (negb (invalid_selection move_board move_position active_small_boards))
    | _, _ => Raise IndexError
    end.

(** The top of the loop body: line 268, then the call of line 271. *)
Definition enter (term : Terminal) (g : game) : list event * (config + outcome) :=
  match renderBoard term (board g) (active_small_boards g) with
  | (out, Ok _) => (out ++ [ask_move], inl (AtMove g))
  | (out, Raise e) => (out, inr (Failed e))
  end.

(** From one return of [blessed_input] to its next call. *)
Definition step (term : Terminal) (c : config) (line : str)
    : list event * (config + outcome) :=
  match c with
  | AtMove g =>
      let move := line in
      if str_eqb move (lit "exit") then ([], inr (Exited 0))
      else
        match validation (active_small_boards g) move with
        | Raise e => ([], inr (Failed e))
        | Ok false => ([ask_retry], inl (AtRetry g))
        | Ok true =>
            let (new_board, active) :=
              makeMove (board g) (active_small_boards g) move (is_first_user g) in
            ([PrintAt (height term - 3) 0 (str_of_list active); ask_continue term],
             inl (AtContinue {| board := board g;
                                active_small_boards := active;
                                is_first_user := is_first_user g |} new_board))
        end
  | AtRetry g => enter term g
  | AtContinue g new_board =>
      (* line 289: new_board is a Board and active_small_boards a list *)
      let board := new_board in
      let won_by_player := checkWin board in
      if truthy won_by_player then
        ([Print (lit "player " ++ format won_by_player ++ lit " won")], inr Finished)
      else
        let is_first_user := negb (is_first_user g) in
        let (out, r) :=
          enter term {| board := board;
                        active_small_boards := active_small_boards g;
                        is_first_user := is_first_user |} in
        (Print (if is_first_user then lit "Player 1s turn" else lit "Player 2s turn")
           :: out, r)
  end.

(** The program on the lines its [blessed_input] calls return, in order:
    what it prints, and where it waits or how it ended. *)
Fixpoint run (term : Terminal) (c : config) (inputs : list str)
    : list event * (config + outcome) :=
  match inputs with
  | [] => ([], inl c)
  | line :: rest =>
      match step term c line with
      | (out, inl c') => let (out', r) := run term c' rest in (out ++ out', r)
      | (out, inr o) => (out, inr o)
      end
  end.

Definition initial_game : game :=
  {| board := initial_board;
     active_small_boards := [1; 2; 3; 4; 5; 6; 7; 8; 9];
     is_first_user := true |}.

(** Lines 260-300. *)
Definition main (term : Terminal) (inputs : list str)
    : list event * (config + outcome) :=
  match renderBoard term (board initial_game) (active_small_boards initial_game) with
  | (out, Raise e) => (out, inr (Failed e))
  | (out, Ok _) =>
      match enter term initial_game with
      | (out', inl c) => let (out'', r) := run term c inputs in (out ++ out' ++ out'', r)
      | (out', inr o) => (out ++ out', inr o)
      end
  end.

(** The variables at a place where the program waits. *)
Definition vars (c : config) : game :=
  match c with
  | AtMove g | AtRetry g | AtContinue g _ => g
  end.

(** ** Predicates the statements use *)

(** A board that [renderBoard] can draw: nine small boards of nine squares
    (more are ignored). *)
Definition nine_squares (small_board : SmallBoard) : bool :=
  (9 <=? List.length (squares small_board))%nat.

Definition drawable (board : Board) : bool :=
  (9 <=? List.length (small_boards board))%nat
  && forallb nine_squares (firstn 9 (small_boards board)).

(** A move text that names an active board and a square: a digit ['1'] ..
    ['9'] whose value is in the list, then a letter ['a'] .. ['i']. *)
Definition selects (active_small_boards : list Z) (move : str) : Prop :=
  exists b p : char,
    move = [b; p]
    /\ (49 <= b <= 57)%N
    /\ In (Z.of_N b - 48) active_small_boards
    /\ (97 <= p <= 105)%N.

(** The boards a place holds can be drawn. *)
Definition drawable_config (c : config) : Prop :=
  drawable (board (vars c)) = true
  /\ match c with
     | AtContinue _ new_board => drawable new_board = true
     | _ => True
     end.

(** The editor's cursor lies inside its buffer. *)
Definition in_buffer (e : Editor.editor) : Prop :=
  0 <= Editor.cursor_pos_in_buffer e
       <= Z.of_nat (List.length (Editor.const_input_buffer e)).

(** What line 284 leaves behind, in terms of [makeMove]'s own result. *)
Definition after_makeMove (term : Terminal) (g : game) (move : str)
    : list event * (config + outcome) :=
  let r := makeMove (board g) (active_small_boards g) move (is_first_user g) in
  ([PrintAt (height term - 3) 0 (str_of_list (snd r)); ask_continue term],
   inl (AtContinue {| board := board g;
                      active_small_boards := snd r;
                      is_first_user := is_first_user g |} (fst r))).

(** ** Inputs the statements use *)

Definition term24 : Terminal := {| height := 24 |}.

(** A small board whose top row is all [x]. *)
Definition top_row_x : SmallBoard := {| squares := [1; 1; 1; 0; 0; 0; 0; 0; 0] |}.

(** A board whose three top small boards each hold a row of [x]. *)
Definition top_boards_x : Board :=
  {| small_boards := repeat top_row_x 3 ++ repeat {| squares := repeat 0 9 |} 6 |}.

(** [board.small_boards[i].squares[j]] *)
Definition square (board : Board) (i j : nat) : option Z :=
  match nth_error (small_boards board) i with
  | Some small_board => nth_error (squares small_board) j
  | None => None
  end.

(** A code point in a range of nine is one of its nine values. *)
Ltac nine lo c H :=
  assert (c = lo \/ c = (lo + 1)%N \/ c = (lo + 2)%N \/ c = (lo + 3)%N
          \/ c = (lo + 4)%N \/ c = (lo + 5)%N \/ c = (lo + 6)%N
          \/ c = (lo + 7)%N \/ c = (lo + 8)%N) as H by lia;
  repeat (destruct H as [H | H]); subst c.

(** ** The layout of the screen *)

Definition letters : list string :=
  ["a"; "b"; "c"; "d"; "e"; "f"; "g"; "h"; "i"]%string.

(** The three lines of a box whose upper left corner is at [row], [col]. *)
Definition box (row col : Z) (content : str) : list event :=
  [ PrintAt row col (lit "------");
    PrintAt (row + 1) col (lit "| " ++ content ++ lit " |");
    PrintAt (row + 2) col (lit "------") ].

(** A small board as a grid: square [i] is the box in row [i / 3] and
    column [i mod 3], boxes being 3 rows high and 6 columns apart, and its
    placeholder carries the [i]-th letter. *)
Definition small_board_grid (position : Z * Z) (small_board : SmallBoard)
    (board_number : Z) (isActive : bool) : list event :=
  List.concat
    (map (fun i =>
            match nth_error (squares small_board) i, nth_error letters i with
            | Some cell_value, Some letter =>
                box (fst position + 3 * Z.of_nat (i / 3))
                    (snd position + 6 * Z.of_nat (i mod 3))
                    (get_box_content cell_value (label board_number letter isActive))
            | _, _ => []
            end)
         (seq 0 9)).

(** The board as a grid: small board [k] (counted from 0) is drawn at row
    [10 * (k / 3)] and column [20 * (k mod 3)] under the number [k + 1],
    with labels when that number is in the active list. *)
Definition board_grid (board : Board) (active_small_boards : list Z) : list event :=
  Clear
    :: List.concat
         (map (fun k =>
                 match nth_error (small_boards board) k with
                 | Some small_board =>
                     small_board_grid
                       (10 * Z.of_nat (k / 3), 20 * Z.of_nat (k mod 3))
                       small_board (Z.of_nat k + 1)
                       (int_in (Z.of_nat k + 1) active_small_boards)
                 | None => []
                 end)
              (seq 0 9)).

(** ** What the screen offers *)

(** No square of the board holds a mark. *)
Definition unmarked (board : Board) : Prop :=
  forall i j cell_value,
    square board i j = Some cell_value -> cell_value <> 1 /\ cell_value <> -1.

(** A text stands in one of the boxes drawn: [out] holds the middle line of
    a box (line 154) around it. *)
Definition shown (out : list event) (content : str) : Prop :=
  exists row col, In (PrintAt row col (lit "| " ++ content ++ lit " |")) out.

(** ** What a run shows of the moves made *)

(** The prompt of line 287, which follows each call of [makeMove]. *)
Definition is_continue_prompt (ev : event) : bool :=
  match ev with
  | Ask prompt _ => str_eqb prompt (lit "Press enter to continue")
  | _ => false
  end.

Definition moves_made (out : list event) : nat :=
  List.length (filter is_continue_prompt out).

(** The board the next [renderBoard] of the loop will draw. *)
Definition next_board (c : config) : Board :=
  match c with
  | AtContinue _ new_board => new_board
  | AtMove g | AtRetry g => board g
  end.

(** ** Where the editor puts the cursor *)


(** * Properties *)

(** ** Python values *)

Lemma str_eqb_eq (a b : str) : str_eqb a b = true <-> a = b.
Proof.
  revert b; induction a as [|x a IH]; intros [|y b]; simpl; split;
    try congruence; try reflexivity.
  - intros H; apply andb_true_iff in H as [Hx Hab].
    apply N.eqb_eq in Hx; apply IH in Hab; congruence.
  - intros H; injection H as -> ->.
    rewrite N.eqb_refl; simpl; apply IH; reflexivity.
Qed.

Lemma str_eqb_neq (a b : str) : str_eqb a b = false <-> a <> b.
Proof.
  destruct (str_eqb a b) eqn:E; split; intros H; try congruence.
  - apply str_eqb_eq in E; contradiction.
  - intros Hab; apply str_eqb_eq in Hab; congruence.
Qed.

Lemma int_in_In (x : Z) (l : list Z) : int_in x l = true <-> In x l.
Proof.
  unfold int_in; rewrite existsb_exists; split.
  - intros (y & Hy & E); apply Z.eqb_eq in E; subst; assumption.
  - intros H; exists x; split; [assumption | apply Z.eqb_refl].
Qed.

Lemma str_in_In (x : str) (l : list str) : str_in x l = true <-> In x l.
Proof.
  unfold str_in; rewrite existsb_exists; split.
  - intros (y & Hy & E); apply str_eqb_eq in E; subst; assumption.
  - intros H; exists x; split; [assumption | apply str_eqb_eq; reflexivity].
Qed.

Lemma board_token_iff (b : char) :
  str_in [b] board_tokens = true <-> (49 <= b <= 57)%N.
Proof.
  split.
  - intros H; apply str_in_In in H; simpl in H.
    repeat (destruct H as [H | H]; [injection H as <-; lia |]).
    contradiction.
  - intros H; nine 49%N b H'; reflexivity.
Qed.

Lemma position_token_iff (p : char) :
  str_in [p] position_tokens = true <-> (97 <= p <= 105)%N.
Proof.
  split.
  - intros H; apply str_in_In in H; simpl in H.
    repeat (destruct H as [H | H]; [injection H as <-; lia |]).
    contradiction.
  - intros H; nine 97%N p H'; reflexivity.
Qed.

Lemma safe_int_token (b : char) :
  (49 <= b <= 57)%N -> safe_int [b] = Z.of_N b - 48.
Proof. intros H; nine 49%N b H'; reflexivity. Qed.

(** ** Validation *)

Lemma two_chars (move : str) :
  List.length move = 2%nat -> exists b p, move = [b; p].
Proof.
  destruct move as [|b [|p [|]]]; simpl; try discriminate.
  intros _; exists b, p; reflexivity.
Qed.

Lemma invalid_selection_false (b p : char) (active : list Z) :
  invalid_selection [b] [p] active = false
  <-> (49 <= b <= 57)%N /\ In (Z.of_N b - 48) active /\ (97 <= p <= 105)%N.
Proof.
  unfold invalid_selection.
  rewrite !orb_false_iff, !negb_false_iff.
  rewrite board_token_iff, position_token_iff, int_in_In.
  split.
  - intros [[Hb Hin] Hp]; rewrite safe_int_token in Hin by assumption; auto.
  - intros (Hb & Hin & Hp); rewrite safe_int_token by assumption; auto.
Qed.

Lemma validation_true_iff (active : list Z) (move : str) :
  validation active move = Ok true <-> selects active move.
Proof.
  unfold validation, selects; split.
  - destruct (Nat.eqb (List.length move) 2) eqn:L; simpl; [|discriminate].
    apply Nat.eqb_eq, two_chars in L as (b & p & ->); simpl.
    intros H; injection H as H; apply negb_true_iff in H.
    apply invalid_selection_false in H; exists b, p; tauto.
  - intros (b & p & -> & H); simpl.
    assert (E : invalid_selection [b] [p] active = false)
      by (apply invalid_selection_false; tauto).
    rewrite E; reflexivity.
Qed.

Lemma validation_total (active : list Z) (move : str) :
  exists ok, validation active move = Ok ok.
Proof.
  unfold validation.
  destruct (Nat.eqb (List.length move) 2) eqn:L; simpl; [|eauto].
  apply Nat.eqb_eq, two_chars in L as (b & p & ->); simpl; eauto.
Qed.

Lemma validation_false_iff (active : list Z) (move : str) :
  validation active move = Ok false <-> ~ selects active move.
Proof.
  rewrite <- validation_true_iff.
  destruct (validation_total active move) as [[|] ->]; split; congruence.
Qed.

(** ** Rendering *)

Lemma snd_bind {A B} (m : io A) (k : A -> io B) :
  snd (bind m k)
  = match snd m with
    | Ok a => snd (k a)
    | Raise e => Raise e
    end.
Proof.
  destruct m as [out [a | e]]; simpl; [|reflexivity].
  destruct (k a); reflexivity.
Qed.

Lemma render_small_board_result term position small_board board_number isActive :
  snd (render_small_board term position small_board board_number isActive)
  = if nine_squares small_board then Ok tt else Raise IndexError.
Proof.
  destruct small_board as [sq].
  do 9 (destruct sq as [|? sq]; [reflexivity|]).
  reflexivity.
Qed.

Lemma renderBoard_result term board active :
  snd (renderBoard term board active)
  = if drawable board then Ok tt else Raise IndexError.
Proof.
  destruct board as [l]; unfold renderBoard, drawable; simpl small_boards.
  rewrite snd_bind; simpl.
  do 8 (destruct l as [|? l];
        [reflexivity
        |rewrite snd_bind; simpl; rewrite snd_bind, render_small_board_result;
         destruct (nine_squares _); simpl;
         [|rewrite ?andb_false_r; reflexivity]]).
  destruct l as [|? l]; [reflexivity|].
  rewrite snd_bind; simpl; rewrite render_small_board_result.
  rewrite andb_true_r; reflexivity.
Qed.

Lemma enter_cases term g :
  (drawable (board g) = true
   /\ exists out, enter term g = (out ++ [ask_move], inl (AtMove g)))
  \/ (drawable (board g) = false
      /\ exists out, enter term g = (out, inr (Failed IndexError))).
Proof.
  unfold enter.
  pose proof (renderBoard_result term (board g) (active_small_boards g)) as R.
  destruct (renderBoard term (board g) (active_small_boards g)) as [out r].
  simpl in R; destruct (drawable (board g)); subst r; [left | right]; eauto.
Qed.

(** ** The rules and the loop *)

Lemma step_AtMove term g move :
  step term (AtMove g) move
  = if str_eqb move (lit "exit") then ([], inr (Exited 0))
    else if negb (Nat.eqb (List.length move) 2) then ([ask_retry], inl (AtRetry g))
    else
      match move with
      | [b; p] =>
          if invalid_selection [b] [p] (active_small_boards g)
          then ([ask_retry], inl (AtRetry g))
          else
            ([PrintAt (height term - 3) 0 (lit "[]"); ask_continue term],
             inl (AtContinue {| board := board g;
                                active_small_boards := [];
                                is_first_user := is_first_user g |} (board g)))
      | _ => ([ask_retry], inl (AtRetry g))
      end.
Proof.
  unfold step, validation.
  destruct (str_eqb move (lit "exit")); [reflexivity|].
  destruct (Nat.eqb (List.length move) 2) eqn:L; simpl; [|reflexivity].
  apply Nat.eqb_eq, two_chars in L as (b & p & ->); simpl.
  destruct (invalid_selection [b] [p] (active_small_boards g)); reflexivity.
Qed.

Lemma step_valid term g move :
  validation (active_small_boards g) move = Ok true ->
  step term (AtMove g) move = after_makeMove term g move.
Proof.
  intros V; unfold step, after_makeMove; rewrite V.
  destruct (str_eqb move (lit "exit")) eqn:E; [|reflexivity].
  apply str_eqb_eq in E; subst move; discriminate V.
Qed.

Lemma step_invalid term g move :
  move <> lit "exit" ->
  validation (active_small_boards g) move = Ok false ->
  step term (AtMove g) move = ([ask_retry], inl (AtRetry g)).
Proof.
  intros E V; unfold step; rewrite V.
  apply str_eqb_neq in E; rewrite E; reflexivity.
Qed.

Lemma step_AtContinue term g new_board line :
  step term (AtContinue g new_board) line
  = let g' := {| board := new_board;
                 active_small_boards := active_small_boards g;
                 is_first_user := negb (is_first_user g) |} in
    (Print (if negb (is_first_user g) then lit "Player 1s turn"
            else lit "Player 2s turn") :: fst (enter term g'),
     snd (enter term g')).
Proof. simpl; destruct (enter term _); reflexivity. Qed.

Lemma enter_config term g out c :
  enter term g = (out, inl c) -> c = AtMove g.
Proof.
  destruct (enter_cases term g) as [[_ [o E]] | [_ [o E]]]; rewrite E;
    congruence.
Qed.

Lemma enter_outcome term g out o :
  enter term g = (out, inr o) -> drawable (board g) = false.
Proof.
  destruct (enter_cases term g) as [[_ [o' E]] | [D [o' E]]]; rewrite E;
    congruence.
Qed.

Lemma run_two term c l1 l2 :
  run term c [l1; l2]
  = match step term c l1 with
    | (out, inl c') =>
        (out ++ fst (step term c' l2) ++ [],
         match snd (step term c' l2) with
         | inl c'' => inl c''
         | inr o => inr o
         end)
    | (out, inr o) => (out, inr o)
    end.
Proof.
  simpl; destruct (step term c l1) as [out [c' | o]]; [|reflexivity].
  destruct (step term c' l2) as [out' [c'' | o']]; simpl;
    rewrite ?app_nil_r; reflexivity.
Qed.

(** ** The statements of the specification *)

(** C8: for every board, active list, move text and player flag, [makeMove]
    returns its input board and an empty active list. *)
Theorem makeMove_returns_board_and_empty
    (board : Board) (active_small_boards : list Z) (move : str)
    (is_first_user : bool) :
  makeMove board active_small_boards move is_first_user = (board, []).
Proof. reflexivity. Qed.

(** C1 (the code at the failing input): on the empty board, where every
    small board is open, the first player's move [5c] should force board 3;
    [makeMove] returns the empty list, which does not hold 3, although
    [checkWin] does not report the end of the game. *)
Theorem makeMove_5c_forces_nothing :
  let r := makeMove initial_board [1; 2; 3; 4; 5; 6; 7; 8; 9] (lit "5c") true in
  snd r = [] /\ int_in 3 (snd r) = false /\ truthy (checkWin (fst r)) = false.
Proof. repeat split. Qed.

(** C2 (the code at the failing input): after the first player's move [5c]
    on the empty board, square [c] of board 5 is still empty and the board
    is the one that was passed in. *)
Theorem makeMove_5c_places_nothing :
  let r := makeMove initial_board [1; 2; 3; 4; 5; 6; 7; 8; 9] (lit "5c") true in
  square initial_board 4 2 = Some 0
  /\ square (fst r) 4 2 = Some 0
  /\ fst r = initial_board.
Proof. repeat split. Qed.

(** C3 (the code at the failing input): a small board whose squares 0, 1, 2
    are all [x] evaluates to [None], which is false as a truth value. *)
Theorem checkSmallWin_top_row_is_None :
  checkSmallWin top_row_x = None_ /\ truthy (checkSmallWin top_row_x) = false.
Proof. split; reflexivity. Qed.

(** C4 (the code at the failing input): with a row of [x] in each of the
    three top small boards, [checkWin] and [checkDraw] both return [None]. *)
Theorem checkWin_top_boards_is_None :
  square top_boards_x 0 0 = Some 1 /\ square top_boards_x 1 1 = Some 1
  /\ square top_boards_x 2 2 = Some 1
  /\ checkWin top_boards_x = None_ /\ checkDraw top_boards_x = None_.
Proof. repeat split. Qed.

(** C6: a move text that reaches the validation (it is not the exit
    command) and fails it leaves the board, the active list and the player
    flag as they were: the loop asks again with the same variables, and
    after the acknowledging line it is back at the move prompt with them. *)
Theorem rejected_attempt_keeps_state term g move :
  move <> lit "exit" ->
  validation (active_small_boards g) move = Ok false ->
  step term (AtMove g) move = ([ask_retry], inl (AtRetry g))
  /\ vars (AtRetry g) = g
  /\ forall line out c,
       run term (AtMove g) [move; line] = (out, inl c) -> c = AtMove g.
Proof.
  intros E V; pose proof (step_invalid term g move E V) as S.
  repeat split; [exact S|].
  intros line out c; rewrite run_two, S; simpl.
  destruct (enter term g) as [o [c' | x]] eqn:En; simpl; intros H;
    [|discriminate].
  apply enter_config in En; congruence.
Qed.

Lemma rejected_attempt_keeps_state_witness :
  step term24 (AtMove initial_game) (lit "0a")
  = ([ask_retry], inl (AtRetry initial_game)).
Proof.
  apply (rejected_attempt_keeps_state term24 initial_game (lit "0a")).
  - discriminate.
  - reflexivity.
Defined.

(** C7: after a move that passed the validation and was applied, and the
    line that acknowledges it, the player flag is the opposite of what it
    was. *)
Theorem player_alternates term g move line out c :
  validation (active_small_boards g) move = Ok true ->
  run term (AtMove g) [move; line] = (out, inl c) ->
  is_first_user (vars c) = negb (is_first_user g)
  /\ c = AtMove {| board := fst (makeMove (board g) (active_small_boards g)
                                    move (is_first_user g));
                   active_small_boards :=
                     snd (makeMove (board g) (active_small_boards g)
                            move (is_first_user g));
                   is_first_user := negb (is_first_user g) |}.
Proof.
  intros V; rewrite run_two, (step_valid term g move V).
  unfold after_makeMove; cbv zeta; rewrite step_AtContinue; simpl.
  destruct (enter term _) as [o [c' | x]] eqn:En; simpl; intros H;
    [|discriminate].
  apply enter_config in En; injection H as _ <-; subst c'; split; reflexivity.
Qed.

Lemma player_alternates_witness :
  is_first_user
    (vars (AtMove {| board := initial_board;
                     active_small_boards := [];
                     is_first_user := false |})) = negb true.
Proof.
  refine (proj1 (player_alternates term24 initial_game (lit "5c") []
                   (fst (run term24 (AtMove initial_game) [lit "5c"; []]))
                   _ _ _)).
  - reflexivity.
  - vm_compute; reflexivity.
Defined.

(** No step takes the branch of lines 295-297. *)
Lemma step_never_finishes term c line out :
  step term c line <> (out, inr Finished).
Proof.
  destruct c as [g | g | g nb].
  - rewrite step_AtMove.
    destruct (str_eqb line (lit "exit")); [discriminate|].
    destruct (negb _); [discriminate|].
    destruct line as [|b [|p [|]]]; try discriminate.
    destruct (invalid_selection _ _ _); discriminate.
  - simpl; destruct (enter_cases term g) as [[_ [o E]] | [_ [o E]]];
      rewrite E; discriminate.
  - rewrite step_AtContinue; cbv zeta.
    destruct (enter_cases term
                {| board := nb; active_small_boards := active_small_boards g;
                   is_first_user := negb (is_first_user g) |})
      as [[_ [o E]] | [_ [o E]]]; rewrite E; simpl; discriminate.
Qed.

Lemma step_drawable term c line out c' :
  drawable_config c -> step term c line = (out, inl c') -> drawable_config c'.
Proof.
  intros [D N]; destruct c as [g | g | g nb]; simpl in D.
  - rewrite step_AtMove.
    destruct (str_eqb line (lit "exit")); [discriminate|].
    destruct (negb _); [intros H; injection H as _ <-; split; auto|].
    destruct line as [|b [|p [|]]];
      try (intros H; injection H as _ <-; split; auto).
    destruct (invalid_selection _ _ _); intros H; injection H as _ <-;
      split; auto.
  - intros H; apply enter_config in H; subst c'; split; auto.
  - rewrite step_AtContinue; cbv zeta; intros H; injection H as _ H.
    destruct (enter term _) as [o [c0 | x]] eqn:En; simpl in H; [|discriminate].
    apply enter_config in En; injection H as <-; subst c0; split; simpl; auto.
Qed.

Lemma step_drawable_ends term c line out o :
  drawable_config c -> step term c line = (out, inr o) ->
  o = Exited 0 /\ line = lit "exit" /\ exists g, c = AtMove g.
Proof.
  intros [D N]; destruct c as [g | g | g nb]; simpl in D.
  - rewrite step_AtMove.
    destruct (str_eqb line (lit "exit")) eqn:E.
    + apply str_eqb_eq in E; intros H; injection H as _ <-; eauto.
    + destruct (negb _); [discriminate|].
      destruct line as [|b [|p [|]]]; try discriminate.
      destruct (invalid_selection _ _ _); discriminate.
  - simpl; intros H; apply enter_outcome in H; congruence.
  - rewrite step_AtContinue; cbv zeta; intros H; injection H as _ H.
    destruct (enter term _) as [o' [c0 | x]] eqn:En; simpl in H; [discriminate|].
    apply enter_outcome in En; simpl in En; congruence.
Qed.

Lemma run_drawable_ends term inputs : forall c out o,
  drawable_config c -> run term c inputs = (out, inr o) ->
  o = Exited 0 /\ In (lit "exit") inputs.
Proof.
  induction inputs as [|line rest IH]; intros c out o D; simpl; [discriminate|].
  destruct (step term c line) as [o1 [c' | x]] eqn:S.
  - destruct (run term c' rest) as [o2 r] eqn:R; intros H; injection H as _ ->.
    destruct (IH c' o2 o (step_drawable _ _ _ _ _ D S) R); auto.
  - intros H; injection H as _ ->.
    destruct (step_drawable_ends _ _ _ _ _ D S) as (-> & <- & _); auto.
Qed.

(** C9: [checkWin] returns [None] for every board; from no place and on no
    input does the loop take the branch that announces a winner and breaks;
    and when the program ends, it ends by [exit(0)] on an input line that
    reads [exit]. *)
Theorem loop_ends_only_by_exit :
  (forall board_position, checkWin board_position = None_)
  /\ (forall term c inputs out, run term c inputs <> (out, inr Finished))
  /\ (forall term inputs out o,
        main term inputs = (out, inr o) ->
        o = Exited 0 /\ In (lit "exit") inputs).
Proof.
  split; [reflexivity|split].
  - intros term c inputs; revert c.
    induction inputs as [|line rest IH]; intros c out; simpl; [discriminate|].
    destruct (step term c line) as [o1 [c' | x]] eqn:S.
    + destruct (run term c' rest) as [o2 r] eqn:R; intros H.
      injection H as _ ->; exact (IH c' o2 R).
    + intros H; injection H as -> ->; exact (step_never_finishes _ _ _ _ S).
  - intros term inputs out o; unfold main.
    pose proof (renderBoard_result term (board initial_game)
                  (active_small_boards initial_game)) as R.
    destruct (renderBoard term _ _) as [o0 [[] | e]]; [|discriminate R].
    destruct (enter term initial_game) as [o1 [c | x]] eqn:En.
    + apply enter_config in En; subst c.
      destruct (run term (AtMove initial_game) inputs) as [o2 r] eqn:Rn.
      intros H; injection H as _ ->.
      apply (run_drawable_ends term inputs (AtMove initial_game) o2 o);
        [split; [reflexivity | exact I] | exact Rn].
    + apply enter_outcome in En; discriminate En.
Qed.

Lemma loop_ends_only_by_exit_witness :
  Exited 0 = Exited 0 /\ In (lit "exit") [lit "5c"; []; lit "exit"].
Proof.
  refine (proj2 (proj2 loop_ends_only_by_exit) term24
            [lit "5c"; []; lit "exit"]
            (fst (main term24 [lit "5c"; []; lit "exit"])) (Exited 0) _).
  vm_compute; reflexivity.
Defined.

(** C10 as stated fails on the input [exit]: it names no board and no
    square, yet the loop does not ask again, it ends the program. *)
Lemma exit_is_not_asked_again :
  ~ selects (active_small_boards initial_game) (lit "exit")
  /\ step term24 (AtMove initial_game) (lit "exit") = ([], inr (Exited 0))
  /\ step term24 (AtMove initial_game) (lit "exit")
     <> ([ask_retry], inl (AtRetry initial_game)).
Proof.
  split; [|split; [reflexivity | discriminate]].
  intros (b & p & E & _); discriminate E.
Qed.

(** C10, amended: an input line other than [exit] reaches [makeMove] when
    it has length 2, its first character is a digit ['1'] .. ['9'] whose
    value is in the active list and its second a letter ['a'] .. ['i'];
    every other such line is answered by the prompt to try again, with the
    variables unchanged and [makeMove] not called. *)
Theorem makeMove_reached_iff_selected term g move :
  move <> lit "exit" ->
  (selects (active_small_boards g) move
   /\ step term (AtMove g) move = after_makeMove term g move)
  \/ (~ selects (active_small_boards g) move
      /\ step term (AtMove g) move = ([ask_retry], inl (AtRetry g))).
Proof.
  intros E.
  destruct (validation_total (active_small_boards g) move) as [[|] V].
  - left; split; [apply validation_true_iff, V | apply step_valid, V].
  - right; split; [apply validation_false_iff, V | apply step_invalid; assumption].
Qed.

Lemma makeMove_reached_iff_selected_witness :
  (selects (active_small_boards initial_game) (lit "5c")
   /\ step term24 (AtMove initial_game) (lit "5c")
      = after_makeMove term24 initial_game (lit "5c"))
  \/ (~ selects (active_small_boards initial_game) (lit "5c")
      /\ step term24 (AtMove initial_game) (lit "5c")
         = ([ask_retry], inl (AtRetry initial_game))).
Proof.
  apply (makeMove_reached_iff_selected term24 initial_game (lit "5c")).
  discriminate.
Defined.

(** ** The line editor *)

Lemma del_in_range {A} (l : list A) (i : Z) :
  0 <= i < Z.of_nat (List.length l) ->
  exists l', Editor.del l i = Some l'
             /\ Z.of_nat (List.length l') = Z.of_nat (List.length l) - 1.
Proof.
  intros H; unfold Editor.del.
  destruct (i <? 0) eqn:N; [apply Z.ltb_lt in N; lia|].
  assert (E : (0 <=? i) && (i <? Z.of_nat (List.length l)) = true)
    by (apply andb_true_iff; split; [apply Z.leb_le | apply Z.ltb_lt]; lia).
  rewrite E; eexists; split; [reflexivity|].
  rewrite length_app, length_firstn, length_skipn; lia.
Qed.

Lemma insert_length {A} (l : list A) (i : Z) (x : A) :
  List.length (Editor.insert l i x) = S (List.length l).
Proof.
  unfold Editor.insert.
  set (j := if i <? 0 then _ else _).
  rewrite length_app; simpl; rewrite length_firstn, length_skipn; lia.
Qed.

Lemma del_insert {A} (l : list A) (i : Z) (x : A) :
  0 <= i <= Z.of_nat (List.length l) ->
  Editor.del (Editor.insert l i x) i = Some l.
Proof.
  intros H; unfold Editor.del; rewrite insert_length.
  destruct (i <? 0) eqn:N; [apply Z.ltb_lt in N; lia|].
  assert (E : (0 <=? i) && (i <? Z.of_nat (S (List.length l))) = true)
    by (apply andb_true_iff; split; [apply Z.leb_le | apply Z.ltb_lt]; lia).
  rewrite E; f_equal; unfold Editor.insert; rewrite N.
  rewrite Z.min_l by lia.
  remember (Z.to_nat i) as n eqn:En.
  assert (Hn : (n <= List.length l)%nat) by lia.
  assert (Lf : List.length (firstn n l) = n) by (rewrite length_firstn; lia).
  rewrite firstn_app, Lf, Nat.sub_diag, firstn_O, app_nil_r.
  rewrite firstn_firstn, Nat.min_id.
  rewrite skipn_app, Lf.
  replace (S n - n)%nat with 1%nat by lia.
  rewrite (skipn_all2 (firstn n l)) by (rewrite Lf; lia); simpl.
  apply firstn_skipn.
Qed.

Lemma press_in_buffer (e : Editor.editor) (k : Editor.key) :
  in_buffer e ->
  exists e', Editor.press e k = Ok e' /\ in_buffer e'.
Proof.
  unfold in_buffer; destruct e as [buf cur]; simpl; intros H.
  destruct k; simpl.
  - eexists; split; [reflexivity | assumption].
  - destruct (cur >? 0) eqn:C.
    + apply Z.gtb_lt in C.
      destruct (del_in_range buf (cur - 1)) as (b' & -> & L); [lia|].
      eexists; split; [reflexivity | simpl; lia].
    + eexists; split; [reflexivity | assumption].
  - destruct (cur <? Z.of_nat (List.length buf)) eqn:C.
    + apply Z.ltb_lt in C.
      destruct (del_in_range buf cur) as (b' & -> & L); [lia|].
      eexists; split; [reflexivity | simpl; lia].
    + eexists; split; [reflexivity | assumption].
  - destruct (cur >? 0) eqn:C.
    + apply Z.gtb_lt in C; eexists; split; [reflexivity | simpl; lia].
    + eexists; split; [reflexivity | assumption].
  - destruct (cur <? Z.of_nat (List.length buf)) eqn:C.
    + apply Z.ltb_lt in C; eexists; split; [reflexivity | simpl; lia].
    + eexists; split; [reflexivity | assumption].
  - eexists; split; [reflexivity | simpl; rewrite insert_length; lia].
  - eexists; split; [reflexivity | assumption].
Qed.

(** X1: with the cursor inside the buffer, no key raises [IndexError] (the
    two [del] statements are in range) and the cursor stays inside the
    buffer. *)
Theorem press_keeps_cursor_in_buffer (e : Editor.editor) (k : Editor.key) :
  in_buffer e ->
  exists e', Editor.press e k = Ok e' /\ in_buffer e'.
Proof. apply press_in_buffer. Qed.

Lemma press_keeps_cursor_in_buffer_witness :
  exists e',
    Editor.press (Editor.start (lit "5c")) Editor.Backspace = Ok e'
    /\ in_buffer e'.
Proof.
  apply (press_keeps_cursor_in_buffer (Editor.start (lit "5c")) Editor.Backspace).
  unfold in_buffer; simpl; lia.
Defined.

Lemma start_in_buffer (initial_text : str) : in_buffer (Editor.start initial_text).
Proof. unfold in_buffer, Editor.start; simpl; rewrite length_map; lia. Qed.

Lemma read_never_raises prompt start keys : forall e out x,
  in_buffer e -> Editor.read prompt start e keys <> (out, Editor.Raised x).
Proof.
  induction keys as [|k keys IH]; intros e out x H; simpl; [discriminate|].
  destruct (press_in_buffer e k H) as (e' & P & H').
  destruct k; try discriminate; rewrite P;
    destruct (Editor.read prompt start e' keys) as [o r] eqn:R;
    intros E; injection E as _ ->; exact (IH e' o x H' R).
Qed.

(** X2: whatever the initial text and the keys pressed, [blessed_input]
    raises no exception. *)
Theorem blessed_input_never_raises term prompt initial_text position keys out x :
  Editor.blessed_input term prompt initial_text position keys
  <> (out, Editor.Raised x).
Proof. apply read_never_raises, start_in_buffer. Qed.

Lemma insert_at_end {A} (l : list A) (x : A) :
  Editor.insert l (Z.of_nat (List.length l)) x = l ++ [x].
Proof.
  unfold Editor.insert.
  destruct (Z.of_nat (List.length l) <? 0) eqn:N; [apply Z.ltb_lt in N; lia|].
  rewrite Z.min_id, Nat2Z.id, firstn_all, skipn_all; reflexivity.
Qed.

Lemma join_chars (s : str) : Editor.join (map (fun c => [c]) s) = s.
Proof.
  unfold Editor.join; induction s as [|c s IH]; simpl; [|rewrite IH];
    reflexivity.
Qed.

Lemma read_typed prompt start ss rest : forall buf,
  snd (Editor.read prompt start
         {| Editor.const_input_buffer := buf;
            Editor.cursor_pos_in_buffer := Z.of_nat (List.length buf) |}
         (map Editor.Printable ss ++ Editor.Enter :: rest))
  = Editor.Returned (Editor.join buf ++ List.concat ss) rest.
Proof.
  induction ss as [|s ss IH]; intros buf; simpl.
  - rewrite app_nil_r; reflexivity.
  - rewrite insert_at_end.
    replace (Z.of_nat (List.length buf) + 1)
      with (Z.of_nat (List.length (buf ++ [s])))
      by (rewrite length_app; simpl; lia).
    specialize (IH (buf ++ [s])).
    destruct (Editor.read _ _ _ _) as [o r]; simpl in *; rewrite IH.
    unfold Editor.join; rewrite concat_app; simpl.
    rewrite app_nil_r, app_assoc; reflexivity.
Qed.

(** X3: typing printable keys and then Enter makes [blessed_input] return
    the initial text followed by what was typed, and leaves the keys after
    Enter unread. *)
Theorem blessed_input_returns_typed_text
    term prompt initial_text position (ss : list str) (rest : list Editor.key) :
  snd (Editor.blessed_input term prompt initial_text position
         (map Editor.Printable ss ++ Editor.Enter :: rest))
  = Editor.Returned (initial_text ++ List.concat ss) rest.
Proof.
  unfold Editor.blessed_input, Editor.start.
  replace (Z.of_nat (List.length initial_text))
    with (Z.of_nat (List.length (map (fun c : char => [c]) initial_text)))
    by (rewrite length_map; reflexivity).
  rewrite read_typed, join_chars; reflexivity.
Qed.

(** X4: Backspace right after a printable key gives back the editor as it
    was before the key, wherever the cursor stood in the buffer. *)
Theorem backspace_undoes_typing (e e1 : Editor.editor) (s : str) :
  in_buffer e ->
  Editor.press e (Editor.Printable s) = Ok e1 ->
  Editor.press e1 Editor.Backspace = Ok e.
Proof.
  unfold in_buffer; destruct e as [buf cur]; simpl; intros H P.
  injection P as <-; simpl.
  destruct (cur + 1 >? 0) eqn:C; [|rewrite Z.gtb_ltb in C; apply Z.ltb_ge in C; lia].
  replace (cur + 1 - 1) with cur by lia.
  rewrite del_insert by lia; reflexivity.
Qed.

Lemma backspace_undoes_typing_witness :
  Editor.press
    {| Editor.const_input_buffer := [lit "5"; lit "x"; lit "c"];
       Editor.cursor_pos_in_buffer := 2 |} Editor.Backspace
  = Ok {| Editor.const_input_buffer := [lit "5"; lit "c"];
          Editor.cursor_pos_in_buffer := 1 |}.
Proof.
  apply (backspace_undoes_typing _ _ (lit "x")).
  - unfold in_buffer; simpl; lia.
  - reflexivity.
Defined.

Lemma read_returns_iff prompt start keys : forall e,
  in_buffer e ->
  (In Editor.Enter keys ->
   exists line rest, snd (Editor.read prompt start e keys)
                     = Editor.Returned line rest)
  /\ (~ In Editor.Enter keys ->
      exists e', snd (Editor.read prompt start e keys) = Editor.Reading e').
Proof.
  induction keys as [|k keys IH]; intros e H.
  - split; [intros [] | intros _; simpl; eauto].
  - destruct (press_in_buffer e k H) as (e' & P & H').
    destruct (IH e' H') as [IHin IHout].
    assert (Step : k <> Editor.Enter ->
                   snd (Editor.read prompt start e (k :: keys))
                   = snd (Editor.read prompt start e' keys)).
    { intros Hk; simpl; destruct k; try contradiction; rewrite P;
        destruct (Editor.read prompt start e' keys); reflexivity. }
    split.
    + intros [-> | Hin]; [simpl; eauto|].
      destruct k; try (simpl; eauto; fail); rewrite Step by discriminate; auto.
    + intros Hn; rewrite Step by (intros ->; apply Hn; left; reflexivity).
      apply IHout; intros Hin; apply Hn; right; exact Hin.
Qed.

Lemma key_eq_dec (a b : Editor.key) : {a = b} + {a <> b}.
Proof. decide equality; apply (list_eq_dec N.eq_dec). Qed.

(** X5: [blessed_input] returns exactly when Enter is among the keys;
    until then it waits for the next key. *)
Theorem blessed_input_returns_iff_enter term prompt initial_text position keys :
  (exists line rest,
     snd (Editor.blessed_input term prompt initial_text position keys)
     = Editor.Returned line rest)
  <-> In Editor.Enter keys.
Proof.
  unfold Editor.blessed_input.
  destruct (read_returns_iff prompt (Editor.start_position term position) keys
              (Editor.start initial_text) (start_in_buffer initial_text))
    as [Hin Hout].
  split; [|exact Hin].
  intros (line & rest & E).
  destruct (in_dec key_eq_dec Editor.Enter keys) as [I | I]; [exact I|].
  destruct (Hout I) as [e' E']; congruence.
Qed.

(** ** The screen *)

Lemma fst_bind {A B} (m : io A) (k : A -> io B) :
  fst (bind m k)
  = fst m ++ match snd m with
             | Ok a => fst (k a)
             | Raise e => []
             end.
Proof.
  destruct m as [out [a | e]]; simpl; [|rewrite app_nil_r; reflexivity].
  destruct (k a); reflexivity.
Qed.

(** X6: [render_small_board] raises [IndexError] exactly when the small
    board has fewer than nine squares, and returns normally otherwise
    (squares after the ninth are ignored). *)
Theorem render_small_board_raises_iff_short
    term position small_board board_number isActive :
  (snd (render_small_board term position small_board board_number isActive)
   = Raise IndexError
   <-> (List.length (squares small_board) < 9)%nat)
  /\ (snd (render_small_board term position small_board board_number isActive)
      = Ok tt
      <-> (9 <= List.length (squares small_board))%nat).
Proof.
  rewrite render_small_board_result; unfold nine_squares.
  destruct (Nat.leb_spec 9 (List.length (squares small_board)));
    split; split; intros; try discriminate; try lia; reflexivity.
Qed.

(** X7: [renderBoard] raises [IndexError] exactly when the board lacks one
    of its first nine small boards or one of them lacks a ninth square; on
    every other board it returns normally. *)
Theorem renderBoard_raises_iff_not_drawable term board active_small_boards :
  (snd (renderBoard term board active_small_boards) = Raise IndexError
   <-> ((List.length (small_boards board) < 9)%nat
        \/ exists small_board,
             In small_board (firstn 9 (small_boards board))
             /\ (List.length (squares small_board) < 9)%nat))
  /\ (snd (renderBoard term board active_small_boards) = Ok tt
      <-> drawable board = true).
Proof.
  rewrite renderBoard_result; split.
  - unfold drawable, nine_squares.
    destruct (Nat.leb_spec 9 (List.length (small_boards board))) as [L | L];
      cbn [andb].
    + destruct (forallb _ _) eqn:F.
      * split; [discriminate|].
        intros [H | (sb & Hin & Hsb)]; [lia|].
        rewrite forallb_forall in F; apply F in Hin; apply Nat.leb_le in Hin; lia.
      * split; [intros _; right | reflexivity].
        destruct (forallb_forall (fun sb => (9 <=? List.length (squares sb))%nat)
                    (firstn 9 (small_boards board))) as [_ Hall].
        destruct (Exists_dec (fun sb => (List.length (squares sb) < 9)%nat)
                    (firstn 9 (small_boards board))
                    (fun sb => lt_dec _ 9)) as [E | E].
        -- apply Exists_exists in E; exact E.
        -- rewrite Hall in F; [discriminate|].
           intros sb Hin; apply Nat.leb_le.
           destruct (le_lt_dec 9 (List.length (squares sb))); [assumption|].
           exfalso; apply E, Exists_exists; eauto.
    + split; [intros _; left; assumption | reflexivity].
  - destruct (drawable board); split; congruence.
Qed.

Lemma render_small_board_output term position small_board board_number isActive :
  nine_squares small_board = true ->
  fst (render_small_board term position small_board board_number isActive)
  = small_board_grid position small_board board_number isActive.
Proof.
  destruct small_board as [sq], position as [top left]; unfold nine_squares.
  simpl squares.
  do 9 (destruct sq as [|? sq]; [discriminate|]); intros _.
  unfold small_board_grid, render_small_board; cbn.
  repeat (f_equal; try lia).
Qed.

(** X8: a small board of nine squares is drawn as a 3 by 3 grid: square
    [i] goes to row [3 * (i / 3)] and column [6 * (i mod 3)] from the
    position given, shows [x] or [o] when it holds 1 or -1, and otherwise
    the board number and the [i]-th letter (two blanks on an inactive
    board). *)
Theorem render_small_board_draws_grid
    term position small_board board_number isActive :
  (9 <= List.length (squares small_board))%nat ->
  render_small_board term position small_board board_number isActive
  = (small_board_grid position small_board board_number isActive, Ok tt).
Proof.
  intros H; apply Nat.leb_le in H.
  pose proof (render_small_board_output term position small_board
                board_number isActive H) as F.
  pose proof (render_small_board_result term position small_board
                board_number isActive) as S.
  unfold nine_squares in S; rewrite H in S.
  destruct (render_small_board _ _ _ _ _); simpl in *; congruence.
Qed.

Lemma render_small_board_draws_grid_witness :
  render_small_board term24 (10, 20) top_row_x 5 true
  = (small_board_grid (10, 20) top_row_x 5 true, Ok tt).
Proof.
  apply (render_small_board_draws_grid term24 (10, 20) top_row_x 5 true).
  simpl; lia.
Defined.

Lemma bind_ret {A B} (a : A) (k : A -> io B) : bind (ret a) k = k a.
Proof. unfold bind, ret; destruct (k a); reflexivity. Qed.

Lemma bind_emit {B} (ev : event) (k : unit -> io B) :
  bind (emit ev) k = (ev :: fst (k tt), snd (k tt)).
Proof. unfold bind, emit; destruct (k tt); reflexivity. Qed.

Lemma render_small_board_pair term position small_board board_number isActive :
  nine_squares small_board = true ->
  render_small_board term position small_board board_number isActive
  = (small_board_grid position small_board board_number isActive, Ok tt).
Proof.
  intros H.
  pose proof (render_small_board_output term position small_board
                board_number isActive H) as F.
  pose proof (render_small_board_result term position small_board
                board_number isActive) as S.
  rewrite H in S.
  destruct (render_small_board _ _ _ _ _); simpl in *; congruence.
Qed.

Lemma bind_render_small_board {B} term position small_board board_number
    isActive (k : unit -> io B) :
  nine_squares small_board = true ->
  bind (render_small_board term position small_board board_number isActive) k
  = (small_board_grid position small_board board_number isActive ++ fst (k tt),
     snd (k tt)).
Proof.
  intros H; rewrite (render_small_board_pair _ _ _ _ _ H).
  unfold bind; destruct (k tt); reflexivity.
Qed.

Lemma renderBoard_pair term board active_small_boards :
  drawable board = true ->
  renderBoard term board active_small_boards
  = (board_grid board active_small_boards, Ok tt).
Proof.
  destruct board as [l]; unfold drawable; simpl small_boards; intros H.
  apply andb_prop in H as [L H].
  do 9 (destruct l as [|? l]; [discriminate L|]).
  cbn [firstn forallb] in H.
  repeat (apply andb_prop in H as [? H]).
  unfold renderBoard, index; cbn [small_boards nth_error].
  rewrite bind_emit.
  repeat (rewrite bind_ret; rewrite bind_render_small_board by assumption;
          cbn [fst snd]).
  rewrite bind_ret, render_small_board_pair by assumption; cbn [fst snd].
  unfold board_grid; cbn [map seq List.concat nth_error small_boards].
  rewrite app_nil_r; reflexivity.
Qed.

(** X9: a board that can be drawn is drawn as a 3 by 3 grid of small
    boards after the screen is cleared: small board [k] (from 0) at row
    [10 * (k / 3)] and column [20 * (k mod 3)], numbered [k + 1], labelled
    exactly when [k + 1] is in the active list. *)
Theorem renderBoard_draws_grid term board active_small_boards :
  drawable board = true ->
  renderBoard term board active_small_boards
  = (board_grid board active_small_boards, Ok tt).
Proof. apply renderBoard_pair. Qed.

Lemma renderBoard_draws_grid_witness :
  renderBoard term24 initial_board [1; 2; 3]
  = (board_grid initial_board [1; 2; 3], Ok tt).
Proof.
  apply (renderBoard_draws_grid term24 initial_board [1; 2; 3]).
  reflexivity.
Defined.

(** ** Labels and moves *)

(** The texts the validation lets through have the form of a label: the
    number of a board between 1 and 9 that is in the active list, followed
    by one of the letters [a] .. [i]. *)
Lemma validation_accepts_labels (active_small_boards : list Z) (move : str) :
  validation active_small_boards move = Ok true
  <-> exists (board_number : Z) (letter : string),
        1 <= board_number <= 9
        /\ In board_number active_small_boards
        /\ In letter letters
        /\ move = label board_number letter true.
Proof.
  rewrite validation_true_iff; unfold selects; split.
  - intros (b & p & -> & Hb & Hin & Hp).
    exists (Z.of_N b - 48), (String (ascii_of_N p) EmptyString).
    split; [lia | split; [exact Hin|]].
    clear Hin; nine 49%N b Hb'; nine 97%N p Hp';
      (split; [vm_compute; tauto | reflexivity]).
  - intros (k & l & Hk & Hin & Hl & ->).
    assert (K : k = 1 \/ k = 2 \/ k = 3 \/ k = 4 \/ k = 5 \/ k = 6 \/ k = 7
                \/ k = 8 \/ k = 9) by lia.
    simpl in Hl.
    repeat (destruct K as [K | K]); subst k;
      repeat (destruct Hl as [Hl | Hl]; [subst l|]); try contradiction;
      (eexists _, _; split; [reflexivity
       | split; [vm_compute; split; discriminate
       | split; [exact Hin | vm_compute; split; discriminate]]]).
Qed.

Lemma In_box_middle row col content row' col' content' :
  In (PrintAt row' col' (lit "| " ++ content' ++ lit " |")) (box row col content)
  -> content' = content.
Proof.
  unfold box; intros [H | [H | [H | []]]]; try discriminate H.
  injection H as _ _ H; apply app_inv_tail in H; congruence.
Qed.

Lemma box_shows row col content : shown (box row col content) content.
Proof. exists (row + 1), col; unfold box; simpl; auto. Qed.

(** The boxes of a small board hold the contents of its first nine
    squares, each with the letter of its place. *)
Lemma shown_small_board_grid position small_board board_number isActive content :
  shown (small_board_grid position small_board board_number isActive) content
  <-> exists i cell_value letter,
        nth_error (squares small_board) i = Some cell_value
        /\ nth_error letters i = Some letter
        /\ content = get_box_content cell_value
                       (label board_number letter isActive).
Proof.
  unfold shown, small_board_grid; split.
  - intros (row & col & H).
    apply in_concat in H as (evs & Hevs & Hin).
    apply in_map_iff in Hevs as (i & <- & _).
    destruct (nth_error (squares small_board) i) as [v|] eqn:V; [|destruct Hin].
    destruct (nth_error letters i) as [l|] eqn:L; [|destruct Hin].
    apply In_box_middle in Hin; eauto 6.
  - intros (i & v & l & V & L & ->).
    assert (Hi : (i < 9)%nat)
      by (apply (nth_error_Some letters i); rewrite L; discriminate).
    destruct (box_shows (fst position + 3 * Z.of_nat (i / 3))
                (snd position + 6 * Z.of_nat (i mod 3))
                (get_box_content v (label board_number l isActive)))
      as (row & col & H).
    exists row, col; apply in_concat; eexists; split; [|exact H].
    apply in_map_iff; exists i; rewrite V, L; split; [reflexivity|].
    apply in_seq; lia.
Qed.

(** The boxes of the board are those of its first nine small boards, each
    under its number. *)
Lemma shown_board_grid board active content :
  shown (board_grid board active) content
  <-> exists k small_board,
        nth_error (small_boards board) k = Some small_board
        /\ (k < 9)%nat
        /\ shown (small_board_grid
                    (10 * Z.of_nat (k / 3), 20 * Z.of_nat (k mod 3))
                    small_board (Z.of_nat k + 1)
                    (int_in (Z.of_nat k + 1) active)) content.
Proof.
  unfold board_grid; split.
  - intros (row & col & [H | H]); [discriminate H|].
    apply in_concat in H as (evs & Hevs & Hin).
    apply in_map_iff in Hevs as (k & <- & Hk); apply in_seq in Hk.
    destruct (nth_error (small_boards board) k) as [sb|] eqn:B; [|destruct Hin].
    exists k, sb; split; [exact B | split; [lia|]].
    exists row, col; exact Hin.
  - intros (k & sb & B & Hk & row & col & H).
    exists row, col; right; apply in_concat; eexists; split; [|exact H].
    apply in_map_iff; exists k; rewrite B; split; [reflexivity|].
    apply in_seq; lia.
Qed.

Lemma drawable_small_board board k :
  drawable board = true -> (k < 9)%nat ->
  exists small_board,
    nth_error (small_boards board) k = Some small_board
    /\ (9 <= List.length (squares small_board))%nat.
Proof.
  unfold drawable; intros D Hk; apply andb_prop in D as [L F].
  apply Nat.leb_le in L.
  destruct (nth_error (small_boards board) k) as [sb|] eqn:B;
    [|apply nth_error_None in B; lia].
  exists sb; split; [reflexivity|].
  rewrite forallb_forall in F; apply Nat.leb_le, F.
  apply (nth_error_In _ k); rewrite nth_error_firstn.
  destruct (Nat.ltb_spec k 9); [exact B | lia].
Qed.

(** X10: what the screen offers is what the loop accepts.  On a board that
    can be drawn, every text [renderBoard] puts into a box is a mark ([x]
    or [o]), two blanks, or a move text that passes the validation; and
    when no square holds a mark, every move text that passes the validation
    stands in one of the boxes. *)
Theorem accepted_moves_are_the_labels_shown term board active_small_boards :
  drawable board = true ->
  (forall content,
     shown (fst (renderBoard term board active_small_boards)) content ->
     content = lit "x" \/ content = lit "o" \/ content = lit "  "
     \/ validation active_small_boards content = Ok true)
  /\ (unmarked board ->
      forall move,
        validation active_small_boards move = Ok true ->
        shown (fst (renderBoard term board active_small_boards)) move).
Proof.
  intros D; rewrite (renderBoard_pair term board active_small_boards D).
  cbn [fst]; split.
  - intros content H.
    apply shown_board_grid in H as (k & sb & B & Hk & H).
    apply shown_small_board_grid in H as (i & v & l & V & L & ->).
    unfold get_box_content, label.
    destruct (v =? 1); [auto|].
    destruct (v =? -1); [auto|].
    destruct (int_in (Z.of_nat k + 1) active_small_boards) eqn:A; [|auto].
    right; right; right; apply validation_accepts_labels.
    exists (Z.of_nat k + 1), l; repeat split; try lia.
    + apply int_in_In, A.
    + apply (nth_error_In _ i), L.
  - intros U move V.
    apply validation_accepts_labels in V as (n & l & Hn & Hin & Hl & ->).
    apply shown_board_grid.
    set (k := Z.to_nat (n - 1)).
    assert (Hk : (k < 9)%nat) by (unfold k; lia).
    assert (En : Z.of_nat k + 1 = n) by (unfold k; lia).
    destruct (drawable_small_board board k D Hk) as (sb & B & S).
    exists k, sb; repeat split; [exact B | exact Hk|].
    apply shown_small_board_grid.
    apply In_nth_error in Hl as (i & L).
    assert (Hi : (i < 9)%nat)
      by (apply (nth_error_Some letters i); rewrite L; discriminate).
    destruct (nth_error (squares sb) i) as [v|] eqn:Sq;
      [|apply nth_error_None in Sq; lia].
    exists i, v, l; split; [first [exact Sq | reflexivity] | split; [exact L|]].
    destruct (U k i v) as [U1 U2]; [unfold square; rewrite B; exact Sq|].
    unfold get_box_content.
    apply Z.eqb_neq in U1, U2; rewrite U1, U2, En.
    apply int_in_In in Hin; unfold label; rewrite Hin; reflexivity.
Qed.

Lemma initial_board_unmarked : unmarked initial_board.
Proof.
  intros i j v H; unfold square, initial_board in H; simpl in H.
  do 9 (destruct i as [|i];
        [simpl in H;
         do 9 (destruct j as [|j]; [injection H as <-; split; discriminate|]);
         destruct j; discriminate H|]).
  destruct i; discriminate H.
Qed.

Lemma accepted_moves_are_the_labels_shown_witness :
  shown (fst (renderBoard term24 initial_board [1; 2; 3; 4; 5; 6; 7; 8; 9]))
    (lit "5c").
Proof.
  refine (proj2 (accepted_moves_are_the_labels_shown term24 initial_board
                   [1; 2; 3; 4; 5; 6; 7; 8; 9] _) _ (lit "5c") _).
  - reflexivity.
  - exact initial_board_unmarked.
  - reflexivity.
Defined.

(** ** The loop *)

(** X11: the validation raises no exception: [move[0]] and [move[1]] are
    read only from a text of length 2. *)
Theorem validation_never_raises (active_small_boards : list Z) (move : str)
    (e : exn) :
  validation active_small_boards move <> Raise e.
Proof.
  destruct (validation_total active_small_boards move) as [ok ->]; discriminate.
Qed.

Lemma validation_empty_active (move : str) : validation [] move = Ok false.
Proof.
  apply validation_false_iff; intros (b & p & _ & _ & [] & _).
Qed.

(** X12: once a move has been applied and acknowledged, no text passes the
    validation any more: the active list [makeMove] left behind is empty. *)
Theorem nothing_accepted_after_a_move term g move line out c move' :
  validation (active_small_boards g) move = Ok true ->
  run term (AtMove g) [move; line] = (out, inl c) ->
  validation (active_small_boards (vars c)) move' = Ok false.
Proof.
  intros V; rewrite run_two, (step_valid term g move V).
  unfold after_makeMove; cbv zeta; rewrite step_AtContinue; simpl.
  destruct (enter term _) as [o [c' | x]] eqn:En; simpl; intros H;
    [|discriminate].
  apply enter_config in En; injection H as _ <-; subst c'; simpl.
  apply validation_empty_active.
Qed.

Lemma nothing_accepted_after_a_move_witness :
  validation
    (active_small_boards
       (vars (AtMove {| board := initial_board;
                        active_small_boards := [];
                        is_first_user := false |}))) (lit "3a")
  = Ok false.
Proof.
  refine (nothing_accepted_after_a_move term24 initial_game (lit "5c") []
            (fst (run term24 (AtMove initial_game) [lit "5c"; []]))
            _ (lit "3a") _ _).
  - reflexivity.
  - vm_compute; reflexivity.
Defined.

Lemma moves_made_app (a b : list event) :
  moves_made (a ++ b) = (moves_made a + moves_made b)%nat.
Proof. unfold moves_made; rewrite filter_app, length_app; reflexivity. Qed.

Lemma render_small_board_no_prompt term position small_board board_number isActive :
  moves_made
    (fst (render_small_board term position small_board board_number isActive))
  = 0%nat.
Proof.
  destruct small_board as [sq].
  do 9 (destruct sq as [|? sq]; [reflexivity|]).
  reflexivity.
Qed.

Lemma moves_made_cons (ev : event) (l : list event) :
  is_continue_prompt ev = false -> moves_made (ev :: l) = moves_made l.
Proof. intros H; unfold moves_made; simpl; rewrite H; reflexivity. Qed.

Lemma renderBoard_no_prompt term board active :
  moves_made (fst (renderBoard term board active)) = 0%nat.
Proof.
  destruct board as [l]; unfold renderBoard, index; simpl small_boards.
  rewrite bind_emit; cbn [fst]; rewrite moves_made_cons by reflexivity.
  do 8 (destruct l as [|? l];
        [reflexivity
        |cbn [nth_error]; rewrite bind_ret, fst_bind, moves_made_app,
           render_small_board_no_prompt; cbn [Nat.add];
         destruct (snd (render_small_board _ _ _ _ _)) as [[] | ?];
         [|reflexivity]]).
  destruct l as [|? l]; [reflexivity|].
  cbn [nth_error]; rewrite bind_ret; apply render_small_board_no_prompt.
Qed.

Lemma enter_no_prompt term g : moves_made (fst (enter term g)) = 0%nat.
Proof.
  unfold enter.
  pose proof (renderBoard_no_prompt term (board g) (active_small_boards g)) as R.
  destruct (renderBoard term _ _) as [out [[] | e]]; simpl in *;
    [rewrite moves_made_app, R; reflexivity | exact R].
Qed.

Lemma run_cons term c line rest :
  run term c (line :: rest)
  = match step term c line with
    | (out, inl c') => (out ++ fst (run term c' rest), snd (run term c' rest))
    | (out, inr o) => (out, inr o)
    end.
Proof.
  simpl; destruct (step term c line) as [out [c' | o]]; [|reflexivity].
  destruct (run term c' rest); reflexivity.
Qed.

(** What one step prints of line 287, and where it leads. *)
Lemma step_moves term c line :
  (moves_made (fst (step term c line)) = 0%nat
   /\ forall c', snd (step term c line) = inl c' ->
                 active_small_boards (vars c) = [] ->
                 active_small_boards (vars c') = [])
  \/ (moves_made (fst (step term c line)) = 1%nat
      /\ active_small_boards (vars c) <> []
      /\ forall c', snd (step term c line) = inl c' ->
                    active_small_boards (vars c') = []).
Proof.
  destruct c as [g | g | g nb].
  - destruct (str_eqb line (lit "exit")) eqn:E.
    + left; unfold step; rewrite E; split; [reflexivity | discriminate].
    + apply str_eqb_neq in E.
      destruct (validation_total (active_small_boards g) line) as [[|] V].
      * right; rewrite (step_valid term g line V); unfold after_makeMove.
        split; [reflexivity | split].
        -- simpl; intros A; rewrite A, validation_empty_active in V; discriminate.
        -- simpl; intros c' H; injection H as <-; reflexivity.
      * left; rewrite (step_invalid term g line E V); split; [reflexivity|].
        simpl; intros c' H; injection H as <-; auto.
  - left; simpl; split; [apply enter_no_prompt|].
    intros c' H A.
    destruct (enter term g) as [o r] eqn:En; simpl in H; subst r.
    apply enter_config in En; subst c'; exact A.
  - left; rewrite step_AtContinue; cbv zeta; simpl fst; simpl snd.
    split.
    + rewrite moves_made_cons by reflexivity; apply enter_no_prompt.
    + intros c' H A.
      destruct (enter term _) as [o r] eqn:En; simpl in H; subst r.
      apply enter_config in En; subst c'; exact A.
Qed.

Lemma run_stuck term inputs : forall c,
  active_small_boards (vars c) = [] ->
  moves_made (fst (run term c inputs)) = 0%nat.
Proof.
  induction inputs as [|line rest IH]; intros c A; [reflexivity|].
  rewrite run_cons.
  destruct (step_moves term c line) as [[M N] | [_ [Ne _]]]; [|contradiction].
  destruct (step term c line) as [out [c' | o]]; simpl in *;
    [|exact M].
  rewrite moves_made_app, M, (IH c' (N c' eq_refl A)); reflexivity.
Qed.

(** X13: in a run of the loop from any place, on any input, line 284 is
    reached at most once: at most one move is ever applied. *)
Theorem at_most_one_move_is_made term (c : config) (inputs : list str) :
  (moves_made (fst (run term c inputs)) <= 1)%nat.
Proof.
  revert c; induction inputs as [|line rest IH]; intros c;
    [unfold moves_made; simpl; lia|].
  rewrite run_cons.
  destruct (step_moves term c line) as [[M N] | [M [_ N]]];
    destruct (step term c line) as [out [c' | o]]; simpl in *;
    rewrite ?moves_made_app, ?M; try lia.
  - specialize (IH c'); lia.
  - rewrite (run_stuck term rest c' (N c' eq_refl)); lia.
Qed.

Lemma run_board term (c c' : config) (inputs : list str) (out : list event) :
  board (vars c) = next_board c ->
  run term c inputs = (out, inl c') ->
  board (vars c') = next_board c /\ next_board c' = next_board c.
Proof.
  revert c out; induction inputs as [|line rest IH]; intros c out B.
  - simpl; intros H; injection H as _ <-; auto.
  - rewrite run_cons.
    destruct (step term c line) as [o1 [c1 | x]] eqn:S; [|discriminate].
    intros H.
    assert (K : board (vars c1) = next_board c /\ next_board c1 = next_board c).
    { destruct c as [g | g | g nb]; simpl in B |- *.
      - rewrite step_AtMove in S.
        destruct (str_eqb line (lit "exit")); [discriminate|].
        destruct (negb _); [injection S as _ <-; auto|].
        destruct line as [|b [|p [|]]]; try (injection S as _ <-; auto).
        destruct (invalid_selection _ _ _); injection S as _ <-; auto.
      - simpl in S; apply enter_config in S; subst c1; auto.
      - rewrite step_AtContinue in S; cbv zeta in S; injection S as _ S.
        destruct (enter term _) as [o [c0 | y]] eqn:En; simpl in S;
          [|discriminate].
        apply enter_config in En; injection S as <-; subst c0; auto. }
    destruct K as [K1 K2].
    destruct (IH c1 (fst (run term c1 rest))) as [I1 I2];
      [congruence | |split; congruence].
    destruct (run term c1 rest) as [o2 r2]; simpl in *; congruence.
Qed.

(** X14: the loop never changes the board: a run that started with board
    [b] (also as the board just returned by [makeMove], if it started at
    line 287) still holds [b] wherever it waits. *)
Theorem run_keeps_the_board term (c c' : config) (inputs : list str)
    (out : list event) :
  board (vars c) = next_board c ->
  run term c inputs = (out, inl c') ->
  board (vars c') = next_board c /\ next_board c' = next_board c.
Proof. apply run_board. Qed.

Lemma run_keeps_the_board_witness :
  board (vars (AtRetry {| board := initial_board;
                          active_small_boards := [];
                          is_first_user := false |}))
  = next_board (AtMove initial_game)
  /\ next_board (AtRetry {| board := initial_board;
                            active_small_boards := [];
                            is_first_user := false |})
     = next_board (AtMove initial_game).
Proof.
  refine (run_keeps_the_board term24 (AtMove initial_game) _
            [lit "5c"; []; lit "3a"]
            (fst (run term24 (AtMove initial_game) [lit "5c"; []; lit "3a"]))
            _ _).
  - reflexivity.
  - vm_compute; reflexivity.
Defined.

(** X16: a step of the loop ends the program in two ways only: by
    [exit(0)], when the text [exit] is given at the move prompt, or by an
    [IndexError], when the board about to be drawn is not drawable.  In
    particular [exit] typed at the two other prompts does not end it. *)
Theorem step_ends_by_exit_or_IndexError term c line out o :
  step term c line = (out, inr o) ->
  (o = Exited 0 /\ line = lit "exit" /\ out = [] /\ exists g, c = AtMove g)
  \/ (o = Failed IndexError /\ drawable (next_board c) = false
      /\ forall g, c <> AtMove g).
Proof.
  destruct c as [g | g | g nb].
  - rewrite step_AtMove.
    destruct (str_eqb line (lit "exit")) eqn:E.
    + apply str_eqb_eq in E; intros H; injection H as <- <-.
      left; repeat split; eauto.
    + destruct (negb _); [discriminate|].
      destruct line as [|b [|p [|]]]; try discriminate.
      destruct (invalid_selection _ _ _); discriminate.
  - simpl; intros H; right.
    destruct (enter_cases term g) as [[_ [o' E]] | [D [o' E]]]; rewrite E in H;
      [discriminate|].
    injection H as _ <-; repeat split; [exact D | discriminate].
  - rewrite step_AtContinue; cbv zeta; intros H; injection H as _ H; right.
    destruct (enter_cases term
                {| board := nb; active_small_boards := active_small_boards g;
                   is_first_user := negb (is_first_user g) |})
      as [[_ [o' E]] | [D [o' E]]]; rewrite E in H; simpl in H;
      [discriminate|].
    injection H as <-; repeat split; [exact D | discriminate].
Qed.

Lemma step_ends_by_exit_or_IndexError_witness :
  (Failed IndexError = Exited 0 /\ lit "exit" = lit "exit"
   /\ fst (step term24 (AtRetry {| board := {| small_boards := [] |};
                                   active_small_boards := [];
                                   is_first_user := true |}) (lit "exit")) = []
   /\ exists g, AtRetry {| board := {| small_boards := [] |};
                           active_small_boards := [];
                           is_first_user := true |} = AtMove g)
  \/ (Failed IndexError = Failed IndexError
      /\ drawable (next_board (AtRetry {| board := {| small_boards := [] |};
                                          active_small_boards := [];
                                          is_first_user := true |})) = false
      /\ forall g, AtRetry {| board := {| small_boards := [] |};
                              active_small_boards := [];
                              is_first_user := true |} <> AtMove g).
Proof.
  apply (step_ends_by_exit_or_IndexError term24
           (AtRetry {| board := {| small_boards := [] |};
                       active_small_boards := [];
                       is_first_user := true |}) (lit "exit")).
  reflexivity.
Defined.

(** X18: in the program as it starts, no mark ever reaches the board:
    wherever [main] waits for input, the board it holds and will draw is
    the empty start board. *)
Theorem main_keeps_the_empty_board term (inputs : list str) (out : list event)
    (c : config) :
  main term inputs = (out, inl c) ->
  board (vars c) = initial_board /\ next_board c = initial_board.
Proof.
  unfold main.
  pose proof (renderBoard_result term (board initial_game)
                (active_small_boards initial_game)) as R.
  destruct (renderBoard term _ _) as [o0 [[] | e]]; [|discriminate].
  destruct (enter term initial_game) as [o1 [c0 | x]] eqn:En; [|discriminate].
  apply enter_config in En; subst c0.
  destruct (run term (AtMove initial_game) inputs) as [o2 r] eqn:Rn.
  intros H; injection H as _ ->.
  apply (run_board term (AtMove initial_game) c inputs o2 eq_refl Rn).
Qed.

Lemma main_keeps_the_empty_board_witness :
  board (vars (AtContinue {| board := initial_board;
                             active_small_boards := [];
                             is_first_user := true |} initial_board))
  = initial_board
  /\ next_board (AtContinue {| board := initial_board;
                               active_small_boards := [];
                               is_first_user := true |} initial_board)
     = initial_board.
Proof.
  refine (main_keeps_the_empty_board term24 [lit "5c"]
            (fst (main term24 [lit "5c"])) _ _).
  vm_compute; reflexivity.
Defined.

(** ** More on the editor and on [safe_int] *)




(** X15: on a string of one ASCII character [safe_int] returns the value
    of the character when it is a decimal digit, and -1 otherwise. *)
Theorem safe_int_of_one_ascii_char (c : char) :
  (c < 128)%N ->
  safe_int [c]
  = if ((48 <=? c) && (c <=? 57))%N then Z.of_N c - 48 else -1.
Proof.
  intros H.
  assert (A : forallb
                (fun c : char =>
                   safe_int [c]
                   =? (if ((48 <=? c) && (c <=? 57))%N
                       then Z.of_N c - 48 else -1))
                (map N.of_nat (seq 0 128)) = true)
    by (vm_compute; reflexivity).
  rewrite forallb_forall in A.
  apply Z.eqb_eq, A.
  rewrite <- (Nnat.N2Nat.id c); apply in_map, in_seq; lia.
Qed.

Lemma safe_int_of_one_ascii_char_witness : safe_int (lit "x") = -1.
Proof.
  apply (safe_int_of_one_ascii_char 120%N).
  reflexivity.
Defined.
